(** * keyboard_teleop.py: key-state tracker and command publisher

    A shallow embedding of
    [jasonackerman_control/scripts/keyboard_teleop.py].  The script keeps
    five module globals ([state], [state_pub], [root], [control] and the
    lock), mutates them from two Tk key callbacks and reads them from a
    rospy timer callback.  Every callback body runs inside
    [with state_lock:], so the callbacks are modelled as atomic steps of
    one sequential machine.

    The windowing toolkit and the ROS client library are not part of the
    script.  Their calls are recorded in a history, and whether a call
    raises is left to an environment (the section variable [env]), so that
    every statement about the script holds whatever the two libraries do. *)

From Stdlib Require Import Floats.PrimFloat.
From Stdlib Require Floats.FloatClass Floats.FloatOps Floats.SpecFloat Floats.FloatAxioms.
From stdpp Require Import base strings list list_numbers.

Set Warnings "-inexact-float".

(** ** Data *)

(** A Tk key event, as far as [keyeq] looks at it. *)
Record event := Event { char : string; keysym : string }.

(** The key mappings at the top of the script. *)
Definition UP : string := "w".
Definition LEFT : string := "a".
Definition DOWN : string := "s".
Definition RIGHT : string := "d".
Definition QUIT : string := "q".

(** The event Tk delivers for a plain letter key: both fields hold the
    letter. *)
Definition key (c : string) : event := Event c c.

(** [ack.drive] of an [AckermannDriveStamped] message: the two fields the
    script writes (the others keep the message's defaults). *)
Record AckermannDrive := Drive { speed : float; steering_angle : float }.

(** Handles of the two library objects held in globals. *)
Inductive Publisher := RosPublisher (topic : string).
Inductive Tk := TkRoot.

(** The module globals.  [state] is the Python list itself; indexing it
    out of range raises.  [max_velocity] and [max_steering_angle] are the
    two parameters [main] reads (lines 110-111) before it creates the
    publisher, the timer and the key bindings; the record describes the
    globals from that point on. *)
Record Globals := MkGlobals {
  state : list bool;
  control : bool;
  state_pub : option Publisher;
  root : option Tk;
  max_velocity : float;
  max_steering_angle : float
}.

(** Calls into the toolkit and the ROS client. *)
Inductive call :=
  | Destroy (w : Tk)                              (* root.destroy() *)
  | SignalShutdown (reason : string)              (* rospy.signal_shutdown(reason) *)
  | Publish (p : Publisher) (a : AckermannDrive). (* state_pub.publish(ack) *)

Inductive exn := IndexError | TclError | ROSException.

(** What the two libraries do: whether a call raises, given the calls
    made before it. *)
Definition environment : Type := list call -> call -> option exn.

(** The machine: the globals and the calls made so far, oldest first. *)
Record Machine := MkMachine { globals : Globals; history : list call }.

Inductive result (A : Type) :=
  | Ok (a : A)
  | Raise (e : exn).
Arguments Ok {A} a.
Arguments Raise {A} e.

(** A computation returns or raises; either way the machine keeps the
    mutations made so far, as Python globals do. *)
Definition M (A : Type) : Type := Machine -> result A * Machine.

Definition ret {A} (a : A) : M A := fun m => (Ok a, m).
Definition bind {A B} (c : M A) (k : A -> M B) : M B := fun m =>
  match c m with
  | (Ok a, m') => k a m'
  | (Raise e, m') => (Raise e, m')
  end.

Declare Scope py_scope.
Delimit Scope py_scope with py.
Notation "x <- c ; k" := (bind c (fun x => k))
  (at level 20, c at level 100, k at level 200, only parsing) : py_scope.
Notation "c ;; k" := (bind c (fun _ => k))
  (at level 100, k at level 200, only parsing, right associativity) : py_scope.
Local Open Scope py_scope.

Definition raise {A} (e : exn) : M A := fun m => (Raise e, m).
Definition get : M Globals := fun m => (Ok (globals m), m).
Definition put (g : Globals) : M unit := fun m => (Ok tt, MkMachine g (history m)).

(** [sum(state)]: a flag that is up counts one. *)
Definition py_sum (l : list bool) : nat := sum_list_with Nat.b2n l.

(** [state[i]] *)
Definition state_get (i : nat) : M bool := fun m =>
  match state (globals m) !! i with
  | Some b => (Ok b, m)
  | None => (Raise IndexError, m)
  end.

(** [state[i] = v] *)
Definition state_set (i : nat) (v : bool) : M unit :=
  g <- get;
  if decide (i < length (state g))
  then put (MkGlobals (<[i:=v]> (state g)) (control g) (state_pub g) (root g)
              (max_velocity g) (max_steering_angle g))
  else raise IndexError.

(** [control = sum(state) > 0] *)
Definition set_control : M unit :=
  g <- get;
  put (MkGlobals (state g) (bool_decide (0 < py_sum (state g))) (state_pub g) (root g)
         (max_velocity g) (max_steering_angle g)).

(** [keyeq(e, c)] *)
Definition keyeq (e : event) (c : string) : bool :=
  String.eqb (char e) c || String.eqb (keysym e) c.

Section Teleop.

Variable env : environment.

Definition extern (c : call) : M unit := fun m =>
  let m' := MkMachine (globals m) (history m ++ [c]) in
  match env (history m) c with
  | None => (Ok tt, m')
  | Some e => (Raise e, m')
  end.

(** [shutdown()] *)
Definition shutdown : M unit :=
  g <- get;
  match root g with
  | Some w => extern (Destroy w)
  | None => ret tt
  end;;
  extern (SignalShutdown "shutdown").

(** [keyup(e)] *)
Definition keyup (e : event) : M unit :=
  (if keyeq e UP then state_set 0 false
   else if keyeq e LEFT then state_set 1 false
   else if keyeq e DOWN then state_set 2 false
   else if keyeq e RIGHT then state_set 3 false
   else ret tt);;
  set_control.

(** [keydown(e)] *)
Definition keydown (e : event) : M unit :=
  (if keyeq e QUIT then shutdown
   else if keyeq e UP then state_set 0 true;; state_set 2 false
   else if keyeq e LEFT then state_set 1 false;; state_set 3 true
   else if keyeq e DOWN then state_set 0 false;; state_set 2 true
   else if keyeq e RIGHT then state_set 1 true;; state_set 3 false
   else ret tt);;
  set_control.

(** [publish_cb(_)]; the timer event argument is not read. *)
Definition publish_cb : M unit :=
  g <- get;
  if negb (control g) then ret tt
  else
    let ack := Drive 0.0 0.0 in
    s0 <- state_get 0;
    ack <- (if s0 then ret (Drive (max_velocity g) (steering_angle ack))
           else
             s2 <- state_get 2;
             if s2 then ret (Drive (- max_velocity g) (steering_angle ack))
             else ret ack);
    s1 <- state_get 1;
    ack <- (if s1 then ret (Drive (speed ack) (max_steering_angle g))
           else
             s3 <- state_get 3;
             if s3 then ret (Drive (speed ack) (- max_steering_angle g))
             else ret ack);
    match state_pub g with
    | Some p => extern (Publish p ack)
    | None => ret tt
    end.

(** ** The event loop *)

Inductive input :=
  | KeyPress (e : event)
  | KeyRelease (e : event).

Definition handler (i : input) : M unit :=
  match i with
  | KeyPress e => keydown e
  | KeyRelease e => keyup e
  end.

(** Tk reports an exception of a callback and goes on with the next
    event, so the loop keeps the machine the callback left. *)
Definition deliver (m : Machine) (i : input) : Machine := snd (handler i m).

Definition run_events (evs : list input) (m : Machine) : Machine :=
  foldl deliver m evs.

End Teleop.

(** ** Vocabulary of the statements *)

(** The globals after the flags were set to [st] and [control] was
    recomputed; nothing else differs. *)
Definition with_flags (g : Globals) (st : list bool) : Globals :=
  MkGlobals st (bool_decide (0 < py_sum st)) (state_pub g) (root g)
    (max_velocity g) (max_steering_angle g).

(** Which branch of the [if]/[elif] chain UP, LEFT, DOWN, RIGHT an event
    reaches.  [keydown] tests QUIT before these. *)
Definition takes_up (e : event) : Prop := keyeq e UP = true.
Definition takes_left (e : event) : Prop :=
  keyeq e UP = false /\ keyeq e LEFT = true.
Definition takes_down (e : event) : Prop :=
  keyeq e UP = false /\ keyeq e LEFT = false /\ keyeq e DOWN = true.
Definition takes_right (e : event) : Prop :=
  keyeq e UP = false /\ keyeq e LEFT = false /\ keyeq e DOWN = false /\
  keyeq e RIGHT = true.


(** Each opposite pair has at most one flag up. *)
Definition exclusive (st : list bool) : Prop :=
  exists f l b r, st = [f; l; b; r] /\ f && b = false /\ l && r = false.

(** The flag list has four entries and [control] is their disjunction. *)
Definition consistent (g : Globals) : Prop :=
  exists f l b r, state g = [f; l; b; r] /\ control g = f || l || b || r.

(** An environment in which no library call raises. *)
Definition quiet : environment := fun _ _ => None.

Definition is_destroy (c : call) : bool :=
  match c with Destroy _ => true | _ => false end.

(** Tkinter and rospy: [destroy] on an application that was destroyed
    raises [TclError]; [signal_shutdown] returns at once when shutdown has
    begun; [publish] is taken not to raise. *)
Definition tkinter_env : environment := fun h c =>
  match c with
  | Destroy _ => if existsb is_destroy h then Some TclError else None
  | _ => None
  end.

(** The module globals once [main] has set up the node with the default
    parameters. *)
Definition boot : Machine :=
  MkMachine
    (MkGlobals [false; false; false; false] false
       (Some (RosPublisher "/ackermann_cmd_mux/output")) (Some TkRoot) 2.0 0.6)
    [].

(** ** The callbacks together *)

(** The four entry points the script registers: the two key bindings
    (lines 120-121), the timer (line 115) and the interrupt handler, whose
    lambda (line 141) calls [shutdown]. *)
Inductive callback :=
  | OnKeyPress (e : event)
  | OnKeyRelease (e : event)
  | OnTimer
  | OnInterrupt.

Definition run_callback (env : environment) (cb : callback) : M unit :=
  match cb with
  | OnKeyPress e => keydown env e
  | OnKeyRelease e => keyup e
  | OnTimer => publish_cb env
  | OnInterrupt => shutdown env
  end.

(** Callbacks run one after the other in any order, also past one that
    raised.  The libraries schedule fewer runs than that (a timer stops with
    its first exception), so what holds here holds for every real run. *)
Definition run_callbacks (env : environment) (cbs : list callback) (m : Machine) : Machine :=
  foldl (fun m cb => snd (run_callback env cb m)) m cbs.

(** The globals that [main] sets and no callback assigns. *)
Definition same_setup (g g' : Globals) : Prop :=
  state_pub g' = state_pub g /\ root g' = root g /\
  max_velocity g' = max_velocity g /\ max_steering_angle g' = max_steering_angle g.

(** A computation relates the globals it starts from to those it leaves,
    whether it returns or raises. *)
Definition keeps {A} (R : Globals -> Globals -> Prop) (c : M A) : Prop :=
  forall m, R (globals m) (globals (snd (c m))).

(** The commands a tick can publish when some flag is up and no opposite
    flags are up together: speed and steering each come from the parameter,
    its negation or the initial zero, and not both are the initial zero. *)
Definition driving_commands (g : Globals) : list AckermannDrive :=
  let v := max_velocity g in
  let s := max_steering_angle g in
  [Drive v 0; Drive (- v) 0; Drive 0 s; Drive 0 (- s);
   Drive v s; Drive v (- s); Drive (- v) s; Drive (- v) (- s)].

(** ** Keys as the user holds them *)



(** A zero of either sign. *)
Definition is_zero (x : float) : bool :=
  match classify x with
  | FloatClass.PZero | FloatClass.NZero => true
  | _ => false
  end.

(** An environment in which the window can be destroyed again but a
    second shutdown signal raises. *)
Definition signal_once_env : environment := fun h c =>
  match c with
  | SignalShutdown _ =>
      if existsb (fun c' => match c' with SignalShutdown _ => true | _ => false end) h
      then Some ROSException else None
  | _ => None
  end.

(** ** Basic facts *)

(** Unfold a handler on a machine whose flag list is known. *)
Ltac open_machine m Hst :=
  destruct m as [[st c p rt v s] h]; simpl in Hst; subst st.

Ltac step_handler :=
  unfold keyup, keydown, with_flags, bind, state_set, set_control, get, put, ret;
  simpl.

Lemma active_is_or (f l b r : bool) :
  bool_decide (0 < py_sum [f; l; b; r]) = f || l || b || r.
Proof. by destruct f, l, b, r. Qed.

Lemma bind_run {A B} (c : M A) (k : A -> M B) (m : Machine) :
  bind c k m =
  match c m with
  | (Ok a, m') => k a m'
  | (Raise e, m') => (Raise e, m')
  end.
Proof. reflexivity. Qed.

Lemma key_takes :
  takes_up (key UP) /\ takes_left (key LEFT) /\ takes_down (key DOWN) /\
  takes_right (key RIGHT).
Proof. by repeat split. Qed.


Section Handlers.

Variable env : environment.

Lemma shutdown_globals (m : Machine) :
  globals (snd (shutdown env m)) = globals m.
Proof.
  unfold shutdown, bind, get, extern, ret. simpl.
  destruct (root (globals m)); simpl;
    repeat (match goal with |- context [env ?h ?c] => destruct (env h c) end; simpl);
    reflexivity.
Qed.

Lemma keyup_up (m : Machine) (e : event) (f l b r : bool) :
  state (globals m) = [f; l; b; r] -> takes_up e ->
  keyup e m = (Ok tt, MkMachine (with_flags (globals m) [false; l; b; r]) (history m)).
Proof. intros Hst Hk. open_machine m Hst. step_handler. by rewrite Hk. Qed.

Lemma keyup_left (m : Machine) (e : event) (f l b r : bool) :
  state (globals m) = [f; l; b; r] -> takes_left e ->
  keyup e m = (Ok tt, MkMachine (with_flags (globals m) [f; false; b; r]) (history m)).
Proof. intros Hst (Hu & Hk). open_machine m Hst. step_handler. by rewrite Hu, Hk. Qed.

Lemma keyup_down (m : Machine) (e : event) (f l b r : bool) :
  state (globals m) = [f; l; b; r] -> takes_down e ->
  keyup e m = (Ok tt, MkMachine (with_flags (globals m) [f; l; false; r]) (history m)).
Proof. intros Hst (Hu & Hl & Hk). open_machine m Hst. step_handler. by rewrite Hu, Hl, Hk. Qed.

Lemma keyup_right (m : Machine) (e : event) (f l b r : bool) :
  state (globals m) = [f; l; b; r] -> takes_right e ->
  keyup e m = (Ok tt, MkMachine (with_flags (globals m) [f; l; b; false]) (history m)).
Proof.
  intros Hst (Hu & Hl & Hd & Hk). open_machine m Hst. step_handler.
  by rewrite Hu, Hl, Hd, Hk.
Qed.

Lemma keyup_other (m : Machine) (e : event) :
  keyeq e UP = false -> keyeq e LEFT = false -> keyeq e DOWN = false ->
  keyeq e RIGHT = false ->
  keyup e m = (Ok tt, MkMachine (with_flags (globals m) (state (globals m))) (history m)).
Proof. intros Hu Hl Hd Hr. step_handler. by rewrite Hu, Hl, Hd, Hr. Qed.

Lemma keydown_up (m : Machine) (e : event) (f l b r : bool) :
  state (globals m) = [f; l; b; r] -> keyeq e QUIT = false -> takes_up e ->
  keydown env e m = (Ok tt, MkMachine (with_flags (globals m) [true; l; false; r]) (history m)).
Proof. intros Hst Hq Hk. open_machine m Hst. step_handler. by rewrite Hq, Hk. Qed.

Lemma keydown_left (m : Machine) (e : event) (f l b r : bool) :
  state (globals m) = [f; l; b; r] -> keyeq e QUIT = false -> takes_left e ->
  keydown env e m = (Ok tt, MkMachine (with_flags (globals m) [f; false; b; true]) (history m)).
Proof. intros Hst Hq (Hu & Hk). open_machine m Hst. step_handler. by rewrite Hq, Hu, Hk. Qed.

Lemma keydown_down (m : Machine) (e : event) (f l b r : bool) :
  state (globals m) = [f; l; b; r] -> keyeq e QUIT = false -> takes_down e ->
  keydown env e m = (Ok tt, MkMachine (with_flags (globals m) [false; l; true; r]) (history m)).
Proof.
  intros Hst Hq (Hu & Hl & Hk). open_machine m Hst. step_handler.
  by rewrite Hq, Hu, Hl, Hk.
Qed.

Lemma keydown_right (m : Machine) (e : event) (f l b r : bool) :
  state (globals m) = [f; l; b; r] -> keyeq e QUIT = false -> takes_right e ->
  keydown env e m = (Ok tt, MkMachine (with_flags (globals m) [f; true; b; false]) (history m)).
Proof.
  intros Hst Hq (Hu & Hl & Hd & Hk). open_machine m Hst. step_handler.
  by rewrite Hq, Hu, Hl, Hd, Hk.
Qed.

Lemma keydown_other (m : Machine) (e : event) :
  keyeq e QUIT = false -> keyeq e UP = false -> keyeq e LEFT = false ->
  keyeq e DOWN = false -> keyeq e RIGHT = false ->
  keydown env e m = (Ok tt, MkMachine (with_flags (globals m) (state (globals m))) (history m)).
Proof. intros Hq Hu Hl Hd Hr. step_handler. by rewrite Hq, Hu, Hl, Hd, Hr. Qed.

(** The quit key: the flags are not touched; [control] is recomputed
    when [shutdown] returns and left alone when it raises. *)
Lemma keydown_quit (m : Machine) (e : event) :
  keyeq e QUIT = true ->
  match fst (keydown env e m) with
  | Ok _ => globals (snd (keydown env e m)) = with_flags (globals m) (state (globals m))
  | Raise _ => globals (snd (keydown env e m)) = globals m
  end.
Proof.
  intros Hq. unfold keydown. rewrite Hq, bind_run.
  pose proof (shutdown_globals m) as Hg.
  destruct (shutdown env m) as [[[]|x] m1]; simpl in *; [|done].
  unfold with_flags. by rewrite Hg.
Qed.

(** Every key event either raises and leaves the globals alone (only
    the quit branch can), or returns with the flags set to one of nine
    lists and [control] recomputed. *)
Lemma handler_cases (m : Machine) (i : input) (f l b r : bool) :
  state (globals m) = [f; l; b; r] ->
  (exists x, fst (handler env i m) = Raise x /\
     globals (deliver env m i) = globals m) \/
  (fst (handler env i m) = Ok tt /\
   exists st, globals (deliver env m i) = with_flags (globals m) st /\
    (st = [f; l; b; r] \/
     st = [false; l; b; r] \/ st = [f; false; b; r] \/
     st = [f; l; false; r] \/ st = [f; l; b; false] \/
     st = [true; l; false; r] \/ st = [f; false; b; true] \/
     st = [false; l; true; r] \/ st = [f; true; b; false])).
Proof.
  intros Hst. unfold deliver. destruct i as [e|e]; simpl.
  - destruct (keyeq e QUIT) eqn:Hq.
    { pose proof (keydown_quit m e Hq) as H.
      destruct (fst (keydown env e m)) as [[]|x]; [right|left; by exists x].
      split; [done|]. exists [f; l; b; r]. rewrite H, Hst. auto. }
    right.
    destruct (keyeq e UP) eqn:Hu.
    { erewrite keydown_up by done. simpl. split; [done|]. eexists. split; [done|]. auto 10. }
    destruct (keyeq e LEFT) eqn:Hl.
    { erewrite keydown_left by done. simpl. split; [done|]. eexists. split; [done|]. auto 10. }
    destruct (keyeq e DOWN) eqn:Hd.
    { erewrite keydown_down by done. simpl. split; [done|]. eexists. split; [done|]. auto 10. }
    destruct (keyeq e RIGHT) eqn:Hr.
    { erewrite keydown_right by done. simpl. split; [done|]. eexists. split; [done|]. auto 10. }
    rewrite keydown_other by done. simpl. split; [done|]. eexists. rewrite Hst. auto.
  - right.
    destruct (keyeq e UP) eqn:Hu.
    { erewrite keyup_up by done. simpl. split; [done|]. eexists. split; [done|]. auto 10. }
    destruct (keyeq e LEFT) eqn:Hl.
    { erewrite keyup_left by done. simpl. split; [done|]. eexists. split; [done|]. auto 10. }
    destruct (keyeq e DOWN) eqn:Hd.
    { erewrite keyup_down by done. simpl. split; [done|]. eexists. split; [done|]. auto 10. }
    destruct (keyeq e RIGHT) eqn:Hr.
    { erewrite keyup_right by done. simpl. split; [done|]. eexists. split; [done|]. auto 10. }
    rewrite keyup_other by done. simpl. split; [done|]. eexists. rewrite Hst. auto.
Qed.

Lemma deliver_exclusive (m : Machine) (i : input) :
  exclusive (state (globals m)) -> exclusive (state (globals (deliver env m i))).
Proof.
  intros (f & l & b & r & Hst & Hfb & Hlr).
  destruct (handler_cases m i f l b r Hst) as [(x & _ & ->)|(_ & st & -> & Hc)].
  { by exists f, l, b, r. }
  simpl. destruct f, l, b, r; simpl in *; try discriminate;
    repeat (destruct Hc as [->|Hc]); try subst st; by repeat eexists.
Qed.

Lemma run_exclusive (evs : list input) (m : Machine) :
  exclusive (state (globals m)) -> exclusive (state (globals (run_events env evs m))).
Proof.
  revert m. induction evs as [|i evs IH]; intros m Hm; [done|].
  simpl. apply IH. by apply deliver_exclusive.
Qed.

Lemma deliver_consistent (m : Machine) (i : input) :
  consistent (globals m) -> consistent (globals (deliver env m i)).
Proof.
  intros (f & l & b & r & Hst & Hc).
  destruct (handler_cases m i f l b r Hst) as [(x & _ & ->)|(_ & st & -> & Hs)].
  { by exists f, l, b, r. }
  repeat (destruct Hs as [->|Hs]); try subst st;
    do 4 eexists; (split; [reflexivity|apply active_is_or]).
Qed.

Lemma run_consistent (evs : list input) (m : Machine) :
  consistent (globals m) -> consistent (globals (run_events env evs m)).
Proof.
  revert m. induction evs as [|i evs IH]; intros m Hm; [done|].
  simpl. apply IH. by apply deliver_consistent.
Qed.

(** The command [publish_cb] builds from the flags. *)
Lemma publish_cb_active (m : Machine) (f l b r : bool) :
  state (globals m) = [f; l; b; r] -> control (globals m) = true ->
  publish_cb env m =
  let g := globals m in
  let ack :=
    Drive (if f then max_velocity g else if b then - max_velocity g else 0)
          (if l then max_steering_angle g else if r then - max_steering_angle g else 0) in
  match state_pub g with
  | Some p => extern env (Publish p ack) m
  | None => (Ok tt, m)
  end.
Proof.
  intros Hst Hc. open_machine m Hst. simpl in Hc. subst c.
  unfold publish_cb, bind, get, state_get, ret. simpl.
  by destruct f, l, b, r, p.
Qed.

Lemma publish_cb_idle (m : Machine) :
  control (globals m) = false -> publish_cb env m = (Ok tt, m).
Proof. intros Hc. unfold publish_cb, bind, get, ret. simpl. by rewrite Hc. Qed.

Lemma extern_globals (c : call) (m : Machine) :
  globals (snd (extern env c m)) = globals m.
Proof. unfold extern. by destruct (env (history m) c). Qed.

End Handlers.

(** ** The key-state tracker *)

(** C1.  Transition table of the key-press handler.  From any four flags
    [f; l; b; r], a press that is not the quit key and reaches the UP branch
    sets forward and clears backward; one that reaches the LEFT branch
    clears left and sets right; DOWN clears forward and sets backward; RIGHT
    sets left and clears right.  In each case the handler returns, the other
    two flags keep their values, [control] is recomputed and nothing else
    in the machine changes. *)
Theorem keydown_transition_table (env : environment) (m : Machine) (e : event)
    (f l b r : bool) :
  state (globals m) = [f; l; b; r] -> keyeq e QUIT = false ->
  (takes_up e ->
   keydown env e m = (Ok tt, MkMachine (with_flags (globals m) [true; l; false; r]) (history m))) /\
  (takes_left e ->
   keydown env e m = (Ok tt, MkMachine (with_flags (globals m) [f; false; b; true]) (history m))) /\
  (takes_down e ->
   keydown env e m = (Ok tt, MkMachine (with_flags (globals m) [false; l; true; r]) (history m))) /\
  (takes_right e ->
   keydown env e m = (Ok tt, MkMachine (with_flags (globals m) [f; true; b; false]) (history m))).
Proof.
  intros Hst Hq. repeat split; intros Hk.
  - by apply keydown_up with f b.
  - by apply keydown_left with l r.
  - by apply keydown_down with f b.
  - by apply keydown_right with l r.
Qed.

Lemma keydown_transition_table_witness :
  state (globals (snd (keydown tkinter_env (key UP) boot))) = [true; false; false; false] /\
  state (globals (snd (keydown tkinter_env (key LEFT) boot))) = [false; false; false; true] /\
  state (globals (snd (keydown tkinter_env (key DOWN) boot))) = [false; false; true; false] /\
  state (globals (snd (keydown tkinter_env (key RIGHT) boot))) = [false; true; false; false].
Proof.
  pose proof (fun e H =>
    keydown_transition_table tkinter_env boot e false false false false eq_refl H) as T.
  destruct key_takes as (Hu & Hl & Hd & Hr).
  split; [|split; [|split]].
  - destruct (T (key UP) eq_refl) as (H & _). by rewrite (H Hu).
  - destruct (T (key LEFT) eq_refl) as (_ & H & _). by rewrite (H Hl).
  - destruct (T (key DOWN) eq_refl) as (_ & _ & H & _). by rewrite (H Hd).
  - destruct (T (key RIGHT) eq_refl) as (_ & _ & _ & H). by rewrite (H Hr).
Defined.




(** C8.  Press forward, press backward, release backward, from all flags
    down: the machine ends with all flags down and [control] false; the
    forward flag cleared by the backward press is not restored. *)
Theorem forward_backward_release (env : environment) (c : bool)
    (p : option Publisher) (w : option Tk) (v s : float) (h : list call) :
  run_events env [KeyPress (key UP); KeyPress (key DOWN); KeyRelease (key DOWN)]
    (MkMachine (MkGlobals [false; false; false; false] c p w v s) h)
  = MkMachine (MkGlobals [false; false; false; false] false p w v s) h.
Proof. reflexivity. Qed.

(** C2.  Mutual exclusion of the opposite pairs.  Starting with all four
    flags down, after every prefix of every sequence of key presses and
    releases the flag list is [f; l; b; r] with forward and backward not
    both up and left and right not both up. *)
Theorem opposite_flags_exclusive (env : environment) (evs : list input)
    (m : Machine) (n : nat) :
  state (globals m) = [false; false; false; false] ->
  exclusive (state (globals (run_events env (take n evs) m))).
Proof.
  intros Hst. apply run_exclusive. rewrite Hst. by exists false, false, false, false.
Qed.

Lemma opposite_flags_exclusive_witness :
  exclusive (state (globals (run_events tkinter_env
    (take 3 [KeyPress (key UP); KeyPress (key RIGHT); KeyPress (key DOWN);
             KeyRelease (key RIGHT)]) boot))).
Proof. apply (opposite_flags_exclusive tkinter_env _ boot 3). reflexivity. Defined.

(** C5.  [control] is the disjunction of the flags.  Whenever a key
    handler returns, from any four flags and any previous value of
    [control], the new [control] is the logical or of the four new flags;
    and starting with all flags down and [control] false this holds after
    every prefix of every sequence of key presses and releases. *)
Theorem control_is_or_of_flags (env : environment) :
  (forall (m m' : Machine) (i : input) (f l b r : bool),
     state (globals m) = [f; l; b; r] ->
     handler env i m = (Ok tt, m') ->
     consistent (globals m')) /\
  (forall (evs : list input) (m : Machine) (n : nat),
     state (globals m) = [false; false; false; false] ->
     control (globals m) = false ->
     consistent (globals (run_events env (take n evs) m))).
Proof.
  split.
  - intros m m' i f l b r Hst Hrun.
    destruct (handler_cases env m i f l b r Hst) as [(x & Hx & _)|(_ & st & Hg & Hs)].
    { rewrite Hrun in Hx. discriminate. }
    unfold deliver in Hg. rewrite Hrun in Hg. simpl in Hg. rewrite Hg.
    repeat (destruct Hs as [->|Hs]); try subst st;
      do 4 eexists; (split; [reflexivity|apply active_is_or]).
  - intros evs m n Hst Hc. apply run_consistent.
    exists false, false, false, false. by rewrite Hst, Hc.
Qed.

Lemma control_is_or_of_flags_witness :
  consistent (globals (snd (keydown tkinter_env (key LEFT) boot))) /\
  consistent (globals (run_events tkinter_env
    (take 2 [KeyPress (key UP); KeyRelease (key UP); KeyPress (key QUIT)]) boot)).
Proof.
  destruct (control_is_or_of_flags tkinter_env) as (H1 & H2). split.
  - apply (H1 boot _ (KeyPress (key LEFT)) false false false false); reflexivity.
  - apply H2; reflexivity.
Defined.

(** ** The command publisher *)

(** C3.  The published command.  With four flags of which at least one is
    up, [control] their disjunction and a publisher in place, the tick makes
    exactly one library call: it publishes the command whose speed is
    [max_velocity] when forward is up, else its negation when backward is
    up, else zero, and whose steering angle is [max_steering_angle] when
    the left flag is up, else its negation when the right flag is up, else
    zero.  With only the right flag up and a maximal steering angle of 0.6
    the command is speed 0.0, steering angle -0.6. *)
Theorem publish_cb_command (env : environment) (m : Machine) (p : Publisher)
    (f l b r : bool) :
  state (globals m) = [f; l; b; r] ->
  control (globals m) = f || l || b || r ->
  f || l || b || r = true ->
  state_pub (globals m) = Some p ->
  let g := globals m in
  let ack :=
    Drive (if f then max_velocity g else if b then - max_velocity g else 0)
          (if l then max_steering_angle g else if r then - max_steering_angle g else 0) in
  globals (snd (publish_cb env m)) = g /\
  history (snd (publish_cb env m)) = history m ++ [Publish p ack] /\
  ((f, l, b, r) = (false, false, false, true) -> max_steering_angle g = 0.6%float ->
   history (snd (publish_cb env m)) = history m ++ [Publish p (Drive 0.0 (-0.6))]).
Proof.
  intros Hst Hc Hany Hp. rewrite Hany in Hc.
  rewrite (publish_cb_active env m f l b r Hst Hc). simpl. rewrite Hp.
  assert (Hcall : forall a, history (snd (extern env (Publish p a) m))
                            = history m ++ [Publish p a]).
  { intros a. unfold extern. by destruct (env (history m) _). }
  split; [apply extern_globals|]. split; [apply Hcall|].
  intros [= -> -> -> ->] ->. apply Hcall.
Qed.

Lemma publish_cb_command_witness :
  history (snd (publish_cb tkinter_env
                  (run_events tkinter_env [KeyPress (key LEFT)] boot)))
  = [Publish (RosPublisher "/ackermann_cmd_mux/output") (Drive 0.0 (-0.6))].
Proof.
  pose proof (publish_cb_command tkinter_env
    (run_events tkinter_env [KeyPress (key LEFT)] boot)
    (RosPublisher "/ackermann_cmd_mux/output") false false false true
    eq_refl eq_refl eq_refl eq_refl) as (_ & H & _).
  rewrite H. reflexivity.
Defined.




(** C9.  The publisher handle may be absent.  With [state_pub] unset and
    the four-flag list in place, the tick returns normally, whatever the
    flags and [control], and the machine is as before: no library call was
    made, so nothing was published, and no exception was raised. *)
Theorem publish_cb_without_publisher (env : environment) (m : Machine) :
  state_pub (globals m) = None ->
  length (state (globals m)) = 4 ->
  publish_cb env m = (Ok tt, m).
Proof.
  intros Hp Hlen.
  destruct (state (globals m)) as [|f [|l [|b [|r [|]]]]] eqn:Hst; try discriminate.
  destruct (control (globals m)) eqn:Hc.
  - rewrite (publish_cb_active env m f l b r Hst Hc). simpl. by rewrite Hp.
  - by apply publish_cb_idle.
Qed.

Lemma publish_cb_without_publisher_witness :
  publish_cb tkinter_env
    (MkMachine (MkGlobals [true; false; false; true] true None None 2.0 0.6) [])
  = (Ok tt, MkMachine (MkGlobals [true; false; false; true] true None None 2.0 0.6) []).
Proof. apply publish_cb_without_publisher; reflexivity. Defined.

(** C10.  The tick reads the globals and never writes them: whatever the
    flag list, [control], the handles and the libraries' answers, the
    globals after [publish_cb] are the globals before it. *)
Theorem publish_cb_frame (env : environment) (m : Machine) :
  globals (snd (publish_cb env m)) = globals m.
Proof.
  unfold publish_cb, bind, get, state_get, ret. simpl.
  destruct (control (globals m)); simpl; [|done].
  repeat (match goal with
          | |- context [state (globals m) !! ?i] =>
              destruct (state (globals m) !! i) as [[]|]; simpl; try done
          end);
    (destruct (state_pub (globals m)); [apply extern_globals|done]).
Qed.

(** ** Shutdown *)

(** C6, as the script has it.  [shutdown] keeps no record of having run
    and never clears [root].  Every call made while [root] is set, the
    first as well as a second one made right after it, asks the toolkit to
    destroy the window and, if that returns, signals ROS shutdown; it
    catches nothing.  It raises what the destroy raises, without
    signalling; else it raises what the signal raises; else it returns.
    The globals stay as they were. *)
Theorem shutdown_repeats_calls (env : environment) (m : Machine) (w : Tk) :
  root (globals m) = Some w ->
  let call_of (m0 : Machine) : result unit * Machine :=
    match env (history m0) (Destroy w) with
    | Some x => (Raise x, MkMachine (globals m) (history m0 ++ [Destroy w]))
    | None =>
        (match env (history m0 ++ [Destroy w]) (SignalShutdown "shutdown") with
         | Some x => Raise x
         | None => Ok tt
         end,
         MkMachine (globals m)
           (history m0 ++ [Destroy w; SignalShutdown "shutdown"]))
    end in
  shutdown env m = call_of m /\
  shutdown env (snd (shutdown env m)) = call_of (snd (shutdown env m)).
Proof.
  intros Hw call_of.
  assert (Hone : forall m0, globals m0 = globals m -> shutdown env m0 = call_of m0).
  { intros m0 Hg. unfold call_of, shutdown, bind, get, extern, ret. simpl.
    rewrite Hg, Hw. destruct (env (history m0) (Destroy w)); simpl; [by rewrite Hg|].
    rewrite <- app_assoc. simpl.
    destruct (env (history m0 ++ [Destroy w]) _); by rewrite Hg. }
  split; [by apply Hone|]. apply Hone, shutdown_globals.
Qed.

Lemma shutdown_repeats_calls_witness :
  shutdown tkinter_env (snd (shutdown tkinter_env boot))
  = (Raise TclError,
     MkMachine (globals boot) [Destroy TkRoot; SignalShutdown "shutdown"; Destroy TkRoot]) /\
  shutdown signal_once_env (snd (shutdown signal_once_env boot))
  = (Raise ROSException,
     MkMachine (globals boot) [Destroy TkRoot; SignalShutdown "shutdown";
                               Destroy TkRoot; SignalShutdown "shutdown"]) /\
  shutdown quiet (snd (shutdown quiet boot))
  = (Ok tt,
     MkMachine (globals boot) [Destroy TkRoot; SignalShutdown "shutdown";
                               Destroy TkRoot; SignalShutdown "shutdown"]).
Proof.
  split; [|split].
  - rewrite (proj2 (shutdown_repeats_calls tkinter_env boot TkRoot eq_refl)).
    reflexivity.
  - rewrite (proj2 (shutdown_repeats_calls signal_once_env boot TkRoot eq_refl)).
    reflexivity.
  - rewrite (proj2 (shutdown_repeats_calls quiet boot TkRoot eq_refl)).
    reflexivity.
Defined.

(** C6, as claimed, fails under Tkinter: the quit key followed by an
    interrupt runs [shutdown] twice, and the second call raises. *)
Lemma shutdown_twice_raises :
  fst (shutdown tkinter_env boot) = Ok tt /\
  fst (shutdown tkinter_env (snd (shutdown tkinter_env boot))) = Raise TclError.
Proof. split; reflexivity. Qed.

(** * Further properties of the callbacks *)

(** ** Frame reasoning *)

#[local] Instance same_setup_preorder : PreOrder same_setup.
Proof.
  split.
  - by intros g.
  - intros g1 g2 g3 (? & ? & ? & ?) (? & ? & ? & ?). repeat split; congruence.
Qed.

Section Keeps.

Context {R : Globals -> Globals -> Prop} `{!PreOrder R}.

Lemma keeps_bind {A B} (c : M A) (k : A -> M B) :
  keeps R c -> (forall a, keeps R (k a)) -> keeps R (bind c k).
Proof.
  intros Hc Hk m. unfold bind. specialize (Hc m).
  destruct (c m) as [[a|x] m1]; simpl in *; [|done].
  transitivity (globals m1); [done|apply Hk].
Qed.

Lemma keeps_ret {A} (a : A) : keeps R (ret a).
Proof. by intros m. Qed.

Lemma keeps_raise {A} (x : exn) : keeps R (@raise A x).
Proof. by intros m. Qed.

Lemma keeps_get : keeps R get.
Proof. by intros m. Qed.

Lemma keeps_state_get (i : nat) : keeps R (state_get i).
Proof. intros m. unfold state_get. by destruct (state (globals m) !! i). Qed.

Lemma keeps_extern (env : environment) (c : call) : keeps R (extern env c).
Proof. intros m. unfold extern. by destruct (env (history m) c). Qed.

Lemma keeps_shutdown (env : environment) : keeps R (shutdown env).
Proof.
  unfold shutdown. apply keeps_bind; [apply keeps_get|]. intros g.
  apply keeps_bind; [|intros ?; apply keeps_extern].
  destruct (root g); [apply keeps_extern|apply keeps_ret].
Qed.

Lemma keeps_publish_cb (env : environment) : keeps R (publish_cb env).
Proof.
  unfold publish_cb. apply keeps_bind; [apply keeps_get|]. intros g.
  destruct (negb (control g)); [apply keeps_ret|].
  apply keeps_bind; [apply keeps_state_get|]. intros s0.
  apply keeps_bind.
  { destruct s0; [apply keeps_ret|].
    apply keeps_bind; [apply keeps_state_get|]. intros sb. destruct sb; apply keeps_ret. }
  intros a1. apply keeps_bind; [apply keeps_state_get|]. intros s1.
  apply keeps_bind.
  { destruct s1; [apply keeps_ret|].
    apply keeps_bind; [apply keeps_state_get|]. intros sb. destruct sb; apply keeps_ret. }
  intros a2. destruct (state_pub g); [apply keeps_extern|apply keeps_ret].
Qed.

End Keeps.

Lemma keeps_state_set (i : nat) (v : bool) : keeps same_setup (state_set i v).
Proof.
  intros m. unfold state_set, bind, get, put, raise. simpl.
  by destruct (decide (i < length (state (globals m)))).
Qed.

Lemma keeps_set_control : keeps same_setup set_control.
Proof. by intros m. Qed.

Lemma keeps_keyup (e : event) : keeps same_setup (keyup e).
Proof.
  unfold keyup. apply keeps_bind; [|intros ?; apply keeps_set_control].
  repeat (match goal with |- context [if ?b then _ else _] => destruct b end;
          [apply keeps_state_set|]).
  apply keeps_ret.
Qed.

Lemma keeps_keydown (env : environment) (e : event) : keeps same_setup (keydown env e).
Proof.
  unfold keydown. apply keeps_bind; [|intros ?; apply keeps_set_control].
  destruct (keyeq e QUIT); [apply keeps_shutdown|].
  repeat (match goal with |- context [if ?b then _ else _] => destruct b end;
          [apply keeps_bind; [|intros ?]; apply keeps_state_set|]).
  apply keeps_ret.
Qed.

Lemma keeps_run_callback (env : environment) (cb : callback) :
  keeps same_setup (run_callback env cb).
Proof.
  destruct cb as [e|e| |]; simpl.
  - apply keeps_keydown.
  - apply keeps_keyup.
  - apply keeps_publish_cb.
  - apply keeps_shutdown.
Qed.

(** One callback keeps both invariants of the flags. *)
Lemma run_callback_invariants (env : environment) (cb : callback) (m : Machine) :
  exclusive (state (globals m)) -> consistent (globals m) ->
  exclusive (state (globals (snd (run_callback env cb m)))) /\
  consistent (globals (snd (run_callback env cb m))).
Proof.
  intros Hx Hc. destruct cb as [e|e| |]; simpl.
  - split.
    + apply (deliver_exclusive env m (KeyPress e) Hx).
    + apply (deliver_consistent env m (KeyPress e) Hc).
  - split.
    + apply (deliver_exclusive env m (KeyRelease e) Hx).
    + apply (deliver_consistent env m (KeyRelease e) Hc).
  - by rewrite <- (keeps_publish_cb (R:=eq) env m).
  - by rewrite <- (keeps_shutdown (R:=eq) env m).
Qed.

Lemma callbacks_keep_setup_aux (env : environment) (cbs : list callback) (m : Machine) :
  same_setup (globals m) (globals (run_callbacks env cbs m)).
Proof.
  revert m. induction cbs as [|cb cbs IH]; intros m; [done|].
  simpl. etransitivity; [apply (keeps_run_callback env cb m)|apply IH].
Qed.

Lemma run_callbacks_invariants (env : environment) (cbs : list callback) (m : Machine) :
  exclusive (state (globals m)) -> consistent (globals m) ->
  exclusive (state (globals (run_callbacks env cbs m))) /\
  consistent (globals (run_callbacks env cbs m)).
Proof.
  revert m. induction cbs as [|cb cbs IH]; intros m Hx Hc; [done|].
  simpl. destruct (run_callback_invariants env cb m Hx Hc) as (Hx' & Hc').
  by apply IH.
Qed.

(** ** All callbacks, in any order *)

(** X1.  No callback assigns [state_pub], [root], [max_velocity] or
    [max_steering_angle]: after any run of key presses, key releases,
    timer ticks and interrupts, in any order, whatever the flag list and
    whatever the libraries raise, the four are as they were. *)
Theorem callbacks_keep_setup (env : environment) (cbs : list callback) (m : Machine) :
  same_setup (globals m) (globals (run_callbacks env cbs m)).
Proof. apply callbacks_keep_setup_aux. Qed.

(** X2.  The two invariants of the flags are kept by all four callbacks:
    from flags with no opposite pair up and [control] their disjunction,
    any run of presses, releases, ticks and interrupts, in any order, ends
    in such flags again. *)
Theorem callbacks_keep_invariants (env : environment) (cbs : list callback)
    (m : Machine) :
  exclusive (state (globals m)) -> consistent (globals m) ->
  exclusive (state (globals (run_callbacks env cbs m))) /\
  consistent (globals (run_callbacks env cbs m)).
Proof. apply run_callbacks_invariants. Qed.

Lemma callbacks_keep_invariants_witness :
  exclusive (state (globals (run_callbacks tkinter_env
    [OnKeyPress (key UP); OnTimer; OnKeyPress (key DOWN); OnInterrupt;
     OnKeyPress (key LEFT); OnInterrupt; OnTimer] boot))) /\
  consistent (globals (run_callbacks tkinter_env
    [OnKeyPress (key UP); OnTimer; OnKeyPress (key DOWN); OnInterrupt;
     OnKeyPress (key LEFT); OnInterrupt; OnTimer] boot)).
Proof.
  apply (callbacks_keep_invariants tkinter_env _ boot).
  - exists false, false, false, false. by repeat split.
  - exists false, false, false, false. by split.
Defined.

(** ** The timer callback *)

(** X3.  A tick makes at most one library call, and that call is a
    publish on the stored publisher while [control] is set: it never
    destroys the window and never signals shutdown.  This holds for every
    flag list, also one too short to index. *)
Theorem publish_cb_calls (env : environment) (m : Machine) :
  history (snd (publish_cb env m)) = history m \/
  exists p a, state_pub (globals m) = Some p /\ control (globals m) = true /\
    history (snd (publish_cb env m)) = history m ++ [Publish p a].
Proof.
  unfold publish_cb, bind, get, state_get, ret. simpl.
  destruct (control (globals m)); simpl; [|by left].
  repeat (match goal with
          | |- context [state (globals m) !! ?i] =>
              destruct (state (globals m) !! i) as [[]|]; simpl; try by left
          end);
    (destruct (state_pub (globals m)) as [p|]; [right|by left]);
    eexists p, _; (split; [done|]); (split; [done|]);
    unfold extern; by destruct (env (history m) _).
Qed.

(** Negation keeps the class of a float, zero or not. *)
Lemma is_zero_opp (x : float) : is_zero (- x) = is_zero x.
Proof.
  unfold is_zero. rewrite !FloatAxioms.classify_spec, FloatAxioms.opp_spec.
  destruct (FloatOps.Prim2SF x) as [[]|[]| |[] mx ex]; simpl; try reflexivity;
    unfold FloatAxioms.SF64classify, SpecFloat.SFclassify; simpl;
    match goal with |- context [if ?c then _ else _] => by destruct c end.
Qed.

Lemma driving_command_moves (g : Globals) (a : AckermannDrive) :
  a ∈ driving_commands g ->
  is_zero (max_velocity g) = false -> is_zero (max_steering_angle g) = false ->
  is_zero (speed a) = false \/ is_zero (steering_angle a) = false.
Proof.
  unfold driving_commands. rewrite !elem_of_cons, elem_of_nil. intros Ha Hv Hs.
  repeat (destruct Ha as [->|Ha]); simpl; rewrite ?is_zero_opp; auto.
  done.
Qed.

(** X4.  What can be published.  Start with all flags down, [control]
    false and a publisher in place, and run presses, releases, ticks and
    interrupts in any order.  A tick then either returns without a call and
    leaves the machine as it is, or publishes exactly one command, one of
    the eight that pair plus or minus [max_velocity] or the initial zero
    with plus or minus [max_steering_angle] or the initial zero, the pair
    of two initial zeros left out.  When neither parameter is a zero, the
    published command has a field that is not a zero: no stop command is
    sent.  (With a zero parameter it can be all zero.) *)
Theorem tick_publishes_driving_command (env : environment) (cbs : list callback)
    (m : Machine) (p : Publisher) :
  state (globals m) = [false; false; false; false] ->
  control (globals m) = false ->
  state_pub (globals m) = Some p ->
  let m' := run_callbacks env cbs m in
  publish_cb env m' = (Ok tt, m') \/
  exists a, a ∈ driving_commands (globals m) /\
    history (snd (publish_cb env m')) = history m' ++ [Publish p a] /\
    (is_zero (max_velocity (globals m)) = false ->
     is_zero (max_steering_angle (globals m)) = false ->
     is_zero (speed a) = false \/ is_zero (steering_angle a) = false).
Proof.
  intros Hst Hc Hp m'.
  destruct (callbacks_keep_setup_aux env cbs m) as (Hp' & _ & Hv & Hs).
  destruct (run_callbacks_invariants env cbs m) as (Hx & Hcons).
  { rewrite Hst. exists false, false, false, false. by repeat split. }
  { exists false, false, false, false. by rewrite Hst, Hc. }
  fold m' in Hp', Hv, Hs, Hx, Hcons.
  destruct Hcons as (f & l & b & r & Hst' & Hc').
  destruct Hx as (f' & l' & b' & r' & Hst'' & Hfb & Hlr).
  rewrite Hst' in Hst''. injection Hst'' as <- <- <- <-.
  destruct (control (globals m')) eqn:Hctl; [right|left; by apply publish_cb_idle].
  rewrite (publish_cb_active env m' f l b r Hst' Hctl). simpl.
  rewrite Hp', Hp, Hv, Hs. eexists.
  assert (Hin : Drive (if f then max_velocity (globals m)
                       else if b then - max_velocity (globals m) else 0)
                      (if l then max_steering_angle (globals m)
                       else if r then - max_steering_angle (globals m) else 0)
                ∈ driving_commands (globals m)).
  { unfold driving_commands.
    destruct f, l, b, r; simpl in *; try discriminate; rewrite !elem_of_cons; auto 10. }
  split; [exact Hin|]. split; [unfold extern; by destruct (env _ _)|].
  by apply driving_command_moves.
Qed.

Lemma tick_publishes_driving_command_witness :
  exists a,
    history (snd (publish_cb tkinter_env
      (run_callbacks tkinter_env [OnKeyPress (key UP); OnKeyPress (key RIGHT)] boot)))
    = [Publish (RosPublisher "/ackermann_cmd_mux/output") a] /\
    (is_zero (speed a) = false \/ is_zero (steering_angle a) = false).
Proof.
  destruct (tick_publishes_driving_command tkinter_env
              [OnKeyPress (key UP); OnKeyPress (key RIGHT)] boot
              (RosPublisher "/ackermann_cmd_mux/output") eq_refl eq_refl eq_refl)
    as [H|(a & _ & H & Hz)].
  - discriminate H.
  - exists a. split; [exact H|exact (Hz eq_refl eq_refl)].
Defined.

(** ** The key callbacks *)

(** The branch a key event takes, for case analysis. *)
Lemma chain_cases (e : event) :
  takes_up e \/ takes_left e \/ takes_down e \/ takes_right e \/
  (keyeq e UP = false /\ keyeq e LEFT = false /\ keyeq e DOWN = false /\
   keyeq e RIGHT = false).
Proof.
  unfold takes_up, takes_left, takes_down, takes_right.
  destruct (keyeq e UP), (keyeq e LEFT), (keyeq e DOWN), (keyeq e RIGHT); auto 10.
Qed.

(** X5.  A key release never raises, makes no library call and never
    puts a flag up: on four flags [keyup] returns, the history is as
    before, the list still has four flags, and every flag that is up
    afterwards was up before. *)
Theorem keyup_only_lowers (m : Machine) (e : event) (f l b r : bool) :
  state (globals m) = [f; l; b; r] ->
  exists st',
    keyup e m = (Ok tt, MkMachine (with_flags (globals m) st') (history m)) /\
    length st' = 4 /\
    forall i, st' !! i = Some true -> state (globals m) !! i = Some true.
Proof.
  intros Hst.
  destruct (chain_cases e) as [Hk|[Hk|[Hk|[Hk|(Hu & Hl & Hd & Hr)]]]].
  - eexists. split; [by apply keyup_up with f|]. split; [done|].
    rewrite Hst. by intros [|[|[|[|]]]].
  - eexists. split; [by apply keyup_left with l|]. split; [done|].
    rewrite Hst. by intros [|[|[|[|]]]].
  - eexists. split; [by apply keyup_down with b|]. split; [done|].
    rewrite Hst. by intros [|[|[|[|]]]].
  - eexists. split; [by apply keyup_right with r|]. split; [done|].
    rewrite Hst. by intros [|[|[|[|]]]].
  - eexists. split; [by apply keyup_other|]. by rewrite Hst.
Qed.

Lemma keyup_only_lowers_witness :
  exists st',
    keyup (key DOWN) (snd (keydown tkinter_env (key DOWN) boot))
    = (Ok tt, MkMachine (with_flags (globals boot) st') []) /\
    length st' = 4.
Proof.
  destruct (keyup_only_lowers (snd (keydown tkinter_env (key DOWN) boot)) (key DOWN)
              false false true false eq_refl) as (st' & H & Hlen & _).
  by exists st'.
Defined.

(** X6.  A key press raises only through [shutdown].  On four flags, a
    press that does not match the quit key returns, makes no library call
    and leaves four flags; and when a press raises, the event matched the
    quit key, [shutdown] raised that exception, and flags and [control] are
    as they were (line 70 was not reached). *)
Theorem keydown_raises_only_on_quit (env : environment) (m : Machine) (e : event)
    (f l b r : bool) :
  state (globals m) = [f; l; b; r] ->
  (keyeq e QUIT = false ->
   exists st',
     keydown env e m = (Ok tt, MkMachine (with_flags (globals m) st') (history m)) /\
     length st' = 4) /\
  (forall x m', keydown env e m = (Raise x, m') ->
     keyeq e QUIT = true /\ shutdown env m = (Raise x, m') /\ globals m' = globals m).
Proof.
  intros Hst.
  assert (Hnq : keyeq e QUIT = false ->
    exists st', keydown env e m
                = (Ok tt, MkMachine (with_flags (globals m) st') (history m)) /\
                length st' = 4).
  { intros Hq.
    destruct (chain_cases e) as [Hk|[Hk|[Hk|[Hk|(Hu & Hl & Hd & Hr)]]]].
    - eexists. split; [by apply keydown_up with f b|done].
    - eexists. split; [by apply keydown_left with l r|done].
    - eexists. split; [by apply keydown_down with f b|done].
    - eexists. split; [by apply keydown_right with l r|done].
    - eexists. split; [by apply keydown_other|by rewrite Hst]. }
  split; [done|]. intros x m' Hrun.
  destruct (keyeq e QUIT) eqn:Hq.
  - split; [done|]. revert Hrun. unfold keydown. rewrite Hq, bind_run.
    pose proof (shutdown_globals env m) as Hg.
    destruct (shutdown env m) as [[[]|y] m1]; simpl in *; [discriminate|].
    intros [= -> ->]. by split.
  - destruct (Hnq eq_refl) as (st' & H & _). rewrite H in Hrun. discriminate.
Qed.

Lemma keydown_raises_only_on_quit_witness :
  shutdown tkinter_env (snd (keydown tkinter_env (key QUIT) boot))
  = (Raise TclError,
     MkMachine (globals boot) [Destroy TkRoot; SignalShutdown "shutdown"; Destroy TkRoot]).
Proof.
  destruct (keydown_raises_only_on_quit tkinter_env
              (snd (keydown tkinter_env (key QUIT) boot)) (key QUIT)
              false false false false eq_refl) as (_ & H).
  destruct (H TclError
              (MkMachine (globals boot)
                 [Destroy TkRoot; SignalShutdown "shutdown"; Destroy TkRoot])
              eq_refl) as (_ & Hs & _).
  exact Hs.
Defined.

(** X7.  The quit key is tested first.  An event that matches the quit
    key, also one that matches a direction key as well, leaves the flag list
    as it is, whatever its length, and makes the library calls of
    [shutdown]. *)
Theorem keydown_quit_first (env : environment) (m : Machine) (e : event) :
  keyeq e QUIT = true ->
  state (globals (snd (keydown env e m))) = state (globals m) /\
  history (snd (keydown env e m)) = history (snd (shutdown env m)).
Proof.
  intros Hq. unfold keydown. rewrite Hq, bind_run.
  pose proof (shutdown_globals env m) as Hg.
  destruct (shutdown env m) as [[[]|y] m1]; simpl in *; by rewrite Hg.
Qed.

Lemma keydown_quit_first_witness :
  state (globals (snd (keydown tkinter_env (Event QUIT UP) boot)))
  = [false; false; false; false] /\
  history (snd (keydown tkinter_env (Event QUIT UP) boot))
  = [Destroy TkRoot; SignalShutdown "shutdown"].
Proof.
  destruct (keydown_quit_first tkinter_env boot (Event QUIT UP) eq_refl) as (H1 & H2).
  split; [exact H1|exact H2].
Defined.

(** X8.  Press and release of the same key.  On the speed axis the tap
    ends with forward and backward both down.  On the steering axis it does
    not: the LEFT branch of [keydown] puts flag 3 up while the LEFT branch
    of [keyup] lowers flag 1, so after a tap of the left key flag 3 is still
    up, and after a tap of the right key flag 1 is still up. *)
Theorem press_then_release (env : environment) (m : Machine) (e : event)
    (f l b r : bool) :
  state (globals m) = [f; l; b; r] -> keyeq e QUIT = false ->
  let tap := keyup e (snd (keydown env e m)) in
  (takes_up e ->
   tap = (Ok tt, MkMachine (with_flags (globals m) [false; l; false; r]) (history m))) /\
  (takes_down e ->
   tap = (Ok tt, MkMachine (with_flags (globals m) [false; l; false; r]) (history m))) /\
  (takes_left e ->
   tap = (Ok tt, MkMachine (with_flags (globals m) [f; false; b; true]) (history m))) /\
  (takes_right e ->
   tap = (Ok tt, MkMachine (with_flags (globals m) [f; true; b; false]) (history m))).
Proof.
  intros Hst Hq tap. unfold tap. repeat split; intros Hk.
  - rewrite (keydown_up env m e f l b r) by done. simpl.
    by rewrite (keyup_up _ e true l false r).
  - rewrite (keydown_down env m e f l b r) by done. simpl.
    by rewrite (keyup_down _ e false l true r).
  - rewrite (keydown_left env m e f l b r) by done. simpl.
    by rewrite (keyup_left _ e f false b true).
  - rewrite (keydown_right env m e f l b r) by done. simpl.
    by rewrite (keyup_right _ e f true b false).
Qed.

Lemma press_then_release_witness :
  keyup (key LEFT) (snd (keydown tkinter_env (key LEFT) boot))
  = (Ok tt, MkMachine (with_flags (globals boot) [false; false; false; true]) []) /\
  keyup (key UP) (snd (keydown tkinter_env (key UP) boot)) = (Ok tt, boot).
Proof.
  split.
  - destruct (press_then_release tkinter_env boot (key LEFT) false false false false
                eq_refl eq_refl) as (_ & _ & H & _).
    exact (H (proj1 (proj2 key_takes))).
  - destruct (press_then_release tkinter_env boot (key UP) false false false false
                eq_refl eq_refl) as (H & _).
    exact (H (proj1 key_takes)).
Defined.

(** Rewrite with the branch tests of the events at hand until the handlers
    have run. *)
Ltac run_keys :=
  unfold takes_up, takes_left, takes_down, takes_right in *;
  repeat match goal with H : _ /\ _ |- _ => destruct H end;
  unfold deliver, handler; step_handler;
  repeat match goal with
         | H : keyeq ?e ?c = _ |- context [keyeq ?e ?c] => rewrite H; simpl
         end.

(** X9.  Key repeat does nothing new.  On four flags, a second press of
    the same key (not the quit key) leaves the machine the first press left,
    and so does a second release; this covers keys bound to no branch. *)
Theorem key_repeat_idempotent (env : environment) (m : Machine) (e : event)
    (f l b r : bool) :
  state (globals m) = [f; l; b; r] -> keyeq e QUIT = false ->
  keydown env e (snd (keydown env e m)) = keydown env e m /\
  keyup e (snd (keyup e m)) = keyup e m.
Proof.
  intros Hst Hq. open_machine m Hst.
  destruct (keyeq e UP) eqn:Hu, (keyeq e LEFT) eqn:Hl, (keyeq e DOWN) eqn:Hd,
    (keyeq e RIGHT) eqn:Hr; split; run_keys; reflexivity.
Qed.

Lemma key_repeat_idempotent_witness :
  keydown tkinter_env (key RIGHT) (snd (keydown tkinter_env (key RIGHT) boot))
  = keydown tkinter_env (key RIGHT) boot.
Proof.
  exact (proj1 (key_repeat_idempotent tkinter_env boot (key RIGHT)
                  false false false false eq_refl eq_refl)).
Defined.

(** X10.  The two axes do not interfere.  On four flags, a press or
    release of a speed key (UP or DOWN branch) and a press or release of a
    steering key (LEFT or RIGHT branch), neither matching the quit key, end
    in the same machine in either order. *)
Theorem axes_commute (env : environment) (m : Machine) (e1 e2 : event)
    (press1 press2 : bool) (f l b r : bool) :
  state (globals m) = [f; l; b; r] ->
  keyeq e1 QUIT = false -> keyeq e2 QUIT = false ->
  takes_up e1 \/ takes_down e1 ->
  takes_left e2 \/ takes_right e2 ->
  let i1 := if press1 then KeyPress e1 else KeyRelease e1 in
  let i2 := if press2 then KeyPress e2 else KeyRelease e2 in
  deliver env (deliver env m i1) i2 = deliver env (deliver env m i2) i1.
Proof.
  intros Hst Hq1 Hq2 H1 H2 i1 i2. subst i1 i2. open_machine m Hst.
  destruct press1, press2, H1 as [H1|H1], H2 as [H2|H2];
    run_keys; reflexivity.
Qed.

Lemma axes_commute_witness :
  state (globals (deliver tkinter_env (deliver tkinter_env boot (KeyPress (key UP)))
                    (KeyPress (key RIGHT))))
  = [true; true; false; false] /\
  deliver tkinter_env (deliver tkinter_env boot (KeyPress (key UP))) (KeyPress (key RIGHT))
  = deliver tkinter_env (deliver tkinter_env boot (KeyPress (key RIGHT))) (KeyPress (key UP)).
Proof.
  split; [reflexivity|].
  exact (axes_commute tkinter_env boot (key UP) (key RIGHT) true true
           false false false false eq_refl eq_refl eq_refl
           (or_introl (proj1 key_takes))
           (or_intror (proj2 (proj2 (proj2 key_takes))))).
Defined.

(** ** Keys and ticks together *)

(** X11.  From key to command.  On four flags with a publisher in place,
    the tick after a press (not the quit key) publishes: speed
    [max_velocity] after the UP branch and its negation after the DOWN
    branch, with the steering the left and right flags give; steering angle
    minus [max_steering_angle] after the LEFT branch and plus
    [max_steering_angle] after the RIGHT branch, with the speed the forward
    and backward flags give. *)
Theorem press_then_tick (env : environment) (m : Machine) (e : event)
    (p : Publisher) (f l b r : bool) :
  state (globals m) = [f; l; b; r] -> keyeq e QUIT = false ->
  state_pub (globals m) = Some p ->
  let v := max_velocity (globals m) in
  let s := max_steering_angle (globals m) in
  let sent := history (snd (publish_cb env (snd (keydown env e m)))) in
  (takes_up e ->
   sent = history m ++ [Publish p (Drive v (if l then s else if r then - s else 0))]) /\
  (takes_down e ->
   sent = history m ++ [Publish p (Drive (- v) (if l then s else if r then - s else 0))]) /\
  (takes_left e ->
   sent = history m ++ [Publish p (Drive (if f then v else if b then - v else 0) (- s))]) /\
  (takes_right e ->
   sent = history m ++ [Publish p (Drive (if f then v else if b then - v else 0) s)]).
Proof.
  intros Hst Hq Hp v s sent. subst v s sent.
  assert (Hcall : forall m0 a,
    history (snd (extern env (Publish p a) m0)) = history m0 ++ [Publish p a]).
  { intros m0 a. unfold extern. by destruct (env (history m0) _). }
  repeat split; intros Hk.
  - rewrite (keydown_up env m e f l b r) by done. simpl.
    rewrite (publish_cb_active env _ true l false r) by (simpl; by destruct l, r).
    simpl. by rewrite Hp, Hcall.
  - rewrite (keydown_down env m e f l b r) by done. simpl.
    rewrite (publish_cb_active env _ false l true r) by (simpl; by destruct l, r).
    simpl. by rewrite Hp, Hcall.
  - rewrite (keydown_left env m e f l b r) by done. simpl.
    rewrite (publish_cb_active env _ f false b true) by (simpl; by destruct f, b).
    simpl. by rewrite Hp, Hcall.
  - rewrite (keydown_right env m e f l b r) by done. simpl.
    rewrite (publish_cb_active env _ f true b false) by (simpl; by destruct f, b).
    simpl. by rewrite Hp, Hcall.
Qed.

Lemma press_then_tick_witness :
  history (snd (publish_cb tkinter_env (snd (keydown tkinter_env (key DOWN) boot))))
  = [Publish (RosPublisher "/ackermann_cmd_mux/output") (Drive (-2.0) 0.0)].
Proof.
  destruct (press_then_tick tkinter_env boot (key DOWN)
              (RosPublisher "/ackermann_cmd_mux/output") false false false false
              eq_refl eq_refl eq_refl) as (_ & H & _).
  exact (H (proj1 (proj2 (proj2 key_takes)))).
Defined.

(** X12.  Releasing a steering key does not stop the steering.  On four
    flags with a publisher in place, after a press and release of the left
    key the tick still publishes steering angle minus
    [max_steering_angle], and after a press and release of the right key
    plus [max_steering_angle], with the speed the forward and backward flags
    give; after a press and release of a speed key with both steering flags
    down the tick publishes nothing. *)
Theorem steering_outlives_release (env : environment) (m : Machine) (e : event)
    (p : Publisher) (f l b r : bool) :
  state (globals m) = [f; l; b; r] -> keyeq e QUIT = false ->
  state_pub (globals m) = Some p ->
  let v := max_velocity (globals m) in
  let s := max_steering_angle (globals m) in
  let m' := snd (keyup e (snd (keydown env e m))) in
  (takes_left e ->
   history (snd (publish_cb env m'))
   = history m ++ [Publish p (Drive (if f then v else if b then - v else 0) (- s))]) /\
  (takes_right e ->
   history (snd (publish_cb env m'))
   = history m ++ [Publish p (Drive (if f then v else if b then - v else 0) s)]) /\
  (takes_up e \/ takes_down e -> l = false -> r = false ->
   publish_cb env m' = (Ok tt, m')).
Proof.
  intros Hst Hq Hp v s m'. subst v s m'.
  assert (Hcall : forall m0 a,
    history (snd (extern env (Publish p a) m0)) = history m0 ++ [Publish p a]).
  { intros m0 a. unfold extern. by destruct (env (history m0) _). }
  split; [|split].
  - intros Hk. rewrite (keydown_left env m e f l b r) by done. simpl.
    rewrite (keyup_left _ e f false b true) by done. simpl.
    rewrite (publish_cb_active env _ f false b true) by (simpl; by destruct f, b).
    simpl. by rewrite Hp, Hcall.
  - intros Hk. rewrite (keydown_right env m e f l b r) by done. simpl.
    rewrite (keyup_right _ e f true b false) by done. simpl.
    rewrite (publish_cb_active env _ f true b false) by (simpl; by destruct f, b).
    simpl. by rewrite Hp, Hcall.
  - intros [Hk|Hk] -> ->.
    + rewrite (keydown_up env m e f false b false) by done. simpl.
      rewrite (keyup_up _ e true false false false) by done. simpl.
      by apply publish_cb_idle.
    + rewrite (keydown_down env m e f false b false) by done. simpl.
      rewrite (keyup_down _ e false false true false) by done. simpl.
      by apply publish_cb_idle.
Qed.

Lemma steering_outlives_release_witness :
  history (snd (publish_cb tkinter_env
    (snd (keyup (key LEFT) (snd (keydown tkinter_env (key LEFT) boot))))))
  = [Publish (RosPublisher "/ackermann_cmd_mux/output") (Drive 0.0 (-0.6))].
Proof.
  destruct (steering_outlives_release tkinter_env boot (key LEFT)
              (RosPublisher "/ackermann_cmd_mux/output") false false false false
              eq_refl eq_refl eq_refl) as (H & _).
  exact (H (proj1 (proj2 key_takes))).
Defined.

(** ** Shutdown *)

(** X13.  The two paths of [shutdown] that make one call.  With no window
    yet ([root] unset, an interrupt before line 118) it only signals ROS.
    With a window whose destruction raises, the exception leaves
    [shutdown] and ROS is not signalled.  The globals are untouched. *)
Theorem shutdown_single_call (env : environment) (m : Machine) :
  (root (globals m) = None ->
   globals (snd (shutdown env m)) = globals m /\
   history (snd (shutdown env m)) = history m ++ [SignalShutdown "shutdown"]) /\
  (forall w x, root (globals m) = Some w -> env (history m) (Destroy w) = Some x ->
     shutdown env m = (Raise x, MkMachine (globals m) (history m ++ [Destroy w]))).
Proof.
  split.
  - intros Hr. unfold shutdown, bind, get, extern, ret. simpl. rewrite Hr. simpl.
    by destruct (env (history m) _).
  - intros w x Hr Hx. unfold shutdown, bind, get, extern, ret. simpl.
    by rewrite Hr, Hx.
Qed.

Lemma shutdown_single_call_witness :
  history (snd (shutdown tkinter_env
    (MkMachine (MkGlobals [false; false; false; false] false None None 2.0 0.6) [])))
  = [SignalShutdown "shutdown"].
Proof.
  destruct (shutdown_single_call tkinter_env
    (MkMachine (MkGlobals [false; false; false; false] false None None 2.0 0.6) []))
    as (H & _).
  exact (proj2 (H eq_refl)).
Defined.
